(** * emcitone-app: verification of [static/js/scripts.js]

    The script is the client-side glue of a server-rendered application:
    a [DOMContentLoaded] callback that wires a password-visibility toggle,
    Bootstrap tooltips and a confirm-before-delete prompt, and two helpers,
    [formatDate] and [showToast].

    The embedding is shallow.  The document is a store of elements addressed
    by node identifiers, so that the two writes of the toggle handler
    ([input.type] and [this.innerHTML]) land in one shared store; handlers are
    computations in a state-and-exception monad over that store; calls into
    the browser ([confirm], [preventDefault], [console.log],
    [new bootstrap.Tooltip]) are appended to an effect trace.  What the
    browser decides (the user's answer to a dialog, the local time zone, the
    default locale) is a field of a [Host] record over which every theorem
    quantifies. *)

From Stdlib Require Import ZArith String Ascii List Bool Lia DecimalString.
From stdpp Require Import base option list gmap strings fin_maps.

Local Open Scope string_scope.

(** ** JavaScript values and completions *)

Module JS.

(** The values the script manipulates: property reads yield [undefined], a
    string, or [null]. *)
Inductive Value : Type :=
| VUndefined
| VNull
| VString (s : string).

(** ECMA-262 ToBoolean on these values: [undefined], [null] and the empty
    string are falsy. *)
Definition ToBoolean (v : Value) : bool :=
  match v with
  | VUndefined | VNull => false
  | VString s => negb (String.eqb s "")
  end.

(** ECMA-262 ToString, as applied by a template literal. *)
Definition ToString (v : Value) : string :=
  match v with
  | VUndefined => "undefined"
  | VNull => "null"
  | VString s => s
  end.

(** [v === 'lit'] for a string literal. *)
Definition strict_eq_string (v : Value) (lit : string) : bool :=
  match v with
  | VString s => String.eqb s lit
  | _ => false
  end.

Inductive Error : Type :=
| TypeError (msg : string)
| ReferenceError (msg : string)
| RangeError (msg : string).

Inductive Completion (A : Type) : Type :=
| Normal (a : A)
| Throw (e : Error).

Arguments Normal {A} a.
Arguments Throw {A} e.

Definition Completion_bind {A B} (f : A → Completion B) (c : Completion A)
    : Completion B :=
  match c with
  | Normal a => f a
  | Throw e => Throw e
  end.

#[global] Instance Completion_mret : MRet Completion := @Normal.
#[global] Instance Completion_mbind : MBind Completion := @Completion_bind.

End JS.

Import JS.

(** ** The document *)

Abbreviation NodeId := nat.

(** An element, with the properties the script reads or writes.  [type] is
    the value a read of [el.type] yields: for an [HTMLInputElement] the
    keyword of its current state (always a string), for an element without
    such a property [undefined] until the script assigns it.  Both strings
    the script assigns (['text'] and ['password']) are valid keywords of an
    input, so a read after the write yields the string written.  [innerHTML]
    is the serialisation of the element's children; the two fragments the
    script assigns serialise to themselves. *)
Record Element : Type := mkElement {
  tagName : string;
  classList : list string;
  attributes : gmap string string;
  type : Value;
  innerHTML : string;
  previousElementSibling : option NodeId
}.

(** [el.dataset.name]: the value of the attribute [data-name], [undefined]
    when the attribute is absent (names without upper-case letters). *)
Definition dataset (el : Element) (name : string) : Value :=
  match attributes el !! ("data-" +:+ name) with
  | Some s => VString s
  | None => VUndefined
  end.

Definition set_type (v : Value) (el : Element) : Element :=
  mkElement (tagName el) (classList el) (attributes el) v (innerHTML el)
            (previousElementSibling el).

Definition set_innerHTML (html : string) (el : Element) : Element :=
  mkElement (tagName el) (classList el) (attributes el) (type el) html
            (previousElementSibling el).

(** Calls that leave the script. *)
Inductive Effect : Type :=
| ConfirmDialog (message : string)
| PreventDefault
| ConsoleLog (record : string)
| NewTooltip (el : NodeId).

(** The two click listeners the script registers. *)
Inductive Listener : Type :=
| TogglePasswordClick
| ConfirmDeleteClick.

Record World : Type := mkWorld {
  nodes : gmap NodeId Element;
  document : list NodeId;                  (* the elements, in tree order *)
  listeners : list (NodeId * Listener);    (* in registration order *)
  trace : list Effect                      (* oldest first *)
}.

Record Event : Type := mkEvent {
  cancelable : bool;
  defaultPrevented : bool
}.

Definition set_nodes (f : gmap NodeId Element → gmap NodeId Element)
    (w : World) : World :=
  mkWorld (f (nodes w)) (document w) (listeners w) (trace w).

Definition add_listener (target : NodeId) (l : Listener) (w : World) : World :=
  mkWorld (nodes w) (document w) (listeners w ++ [(target, l)]) (trace w).

Definition emit (e : Effect) (w : World) : World :=
  mkWorld (nodes w) (document w) (listeners w) (trace w ++ [e]).

(** ** The monad of handlers: state over the world, with exceptions *)

Definition JSM (A : Type) : Type := World → World * Completion A.

Definition JSM_ret {A} (a : A) : JSM A := λ w, (w, Normal a).

Definition JSM_bind {A B} (f : A → JSM B) (m : JSM A) : JSM B :=
  λ w, match m w with
       | (w', Normal a) => f a w'
       | (w', Throw e) => (w', Throw e)
       end.

#[global] Instance JSM_mret : MRet JSM := @JSM_ret.
#[global] Instance JSM_mbind : MBind JSM := @JSM_bind.

Definition throw {A} (e : Error) : JSM A := λ w, (w, Throw e).
Definition update (f : World → World) : JSM unit := λ w, (f w, Normal tt).

(** Reading a property through a reference: the reference must denote an
    element, which is returned with its identifier.  [null], and an
    identifier outside the store, which stands for [null] too, give the
    TypeError of reading a property of [null]. *)
Definition null_error (what : string) : Error :=
  TypeError ("Cannot read properties of null (reading '" +:+ what +:+ "')").

Definition deref (what : string) (o : option NodeId) : JSM (NodeId * Element) :=
  λ w, match o with
       | Some i =>
           match nodes w !! i with
           | Some el => (w, Normal (i, el))
           | None => (w, Throw (null_error what))
           end
       | None => (w, Throw (null_error what))
       end.

(** [el.prop = v], a write through the reference [i]. *)
Definition assign (i : NodeId) (f : Element → Element) : JSM unit :=
  update (set_nodes (alter f i)).

Fixpoint forEach {A} (l : list A) (f : A → JSM unit) : JSM unit :=
  match l with
  | [] => mret tt
  | x :: l' => f x;; forEach l' f
  end.

Fixpoint map_array {A B} (l : list A) (f : A → JSM B) : JSM (list B) :=
  match l with
  | [] => mret []
  | x :: l' => y ← f x; ys ← map_array l' f; mret (y :: ys)
  end.

(** ** The host: what the browser and its user decide *)

Inductive Locale : Type :=
| en_US
| en_GB.

Record Host : Type := mkHost {
  (** the user's answer to [confirm(message)]: [true] for OK *)
  user_confirms : string → bool;
  (** whether the page loaded the Bootstrap bundle before this script *)
  bootstrap_defined : bool;
  (** ECMA-262 LocalTZA(t, true): the offset of local time from UTC, in
      milliseconds, at the UTC instant [t] *)
  LocalTZA : Z → Z;
  (** the locale [toLocaleDateString(undefined, ...)] resolves to *)
  defaultLocale : Locale;
  (** [Date.parse] on strings outside the date-only ISO format, which
      ECMA-262 leaves to the implementation; [None] is NaN *)
  implementation_parse : string → option Z;
  (** the locale data for the combinations of year, month and day styles
      other than the one the script asks for: styles, then year, month
      (from 0) and day *)
  locale_patterns :
    Locale → option string → option string → option string → Z → Z → Z → string
}.

(** ** The script *)

(** The two fragments assigned to [innerHTML], lines 10 and 13.  [dquote] is
    the quotation mark (code 34) around the class attribute. *)
Definition dquote : string := String (ascii_of_nat 34) EmptyString.

Definition icon_eye_slash : string :=
  "<i class=" +:+ dquote +:+ "fas fa-eye-slash" +:+ dquote +:+ "></i>".

Definition icon_eye : string :=
  "<i class=" +:+ dquote +:+ "fas fa-eye" +:+ dquote +:+ "></i>".

Section Script.

Variable host : Host.

(** [confirm(message)]: a modal dialog; the call returns the user's answer. *)
Definition confirm (message : string) : JSM bool :=
  update (emit (ConfirmDialog message));; mret (user_confirms host message).

(** [e.preventDefault()]: sets the canceled flag of a cancelable event. *)
Definition preventDefault (e : Event) : JSM Event :=
  update (emit PreventDefault);;
  mret (mkEvent (cancelable e) (cancelable e || defaultPrevented e)).

(** [console.log(record)]. *)
Definition console_log (record : string) : JSM unit :=
  update (emit (ConsoleLog record)).

(** [new bootstrap.Tooltip(el)]: a ReferenceError when the global
    [bootstrap] is not defined. *)
Definition new_bootstrap_Tooltip (el : NodeId) : JSM NodeId :=
  if bootstrap_defined host
  then update (emit (NewTooltip el));; mret el
  else throw (ReferenceError "bootstrap is not defined").

(** [document.querySelectorAll(selector)], for a class selector and for an
    attribute selector: the matching elements in document order. *)
Definition has_class (cls : string) (el : Element) : bool :=
  existsb (String.eqb cls) (classList el).

Definition has_attribute (name value : string) (el : Element) : bool :=
  match attributes el !! name with
  | Some v => String.eqb v value
  | None => false
  end.

Definition matching (p : Element → bool) (w : World) : list NodeId :=
  List.filter (λ i, match nodes w !! i with
                    | Some el => p el
                    | None => false
                    end)
              (document w).

Definition querySelectorAll (p : Element → bool) : JSM (list NodeId) :=
  λ w, (w, Normal (matching p w)).

Definition addEventListener (target : NodeId) (l : Listener) : JSM unit :=
  update (add_listener target l).

(** Lines 6-15: the click listener of a [.toggle-password] control. *)
Definition togglePassword_click (this : NodeId) : JSM unit :=
  '(_, button) ← deref "previousElementSibling" (Some this);
  let input := previousElementSibling button in
  '(i, el) ← deref "type" input;
  if strict_eq_string (type el) "password" then
    assign i (set_type (VString "text"));;
    assign this (set_innerHTML icon_eye_slash)
  else
    assign i (set_type (VString "password"));;
    assign this (set_innerHTML icon_eye).

(** Lines 27-33: the click listener of a [.btn-danger] element. *)
Definition confirmDelete_click (this : NodeId) (e : Event) : JSM Event :=
  '(_, btn) ← deref "dataset" (Some this);
  if ToBoolean (dataset btn "confirm") then
    ok ← confirm (ToString (dataset btn "confirm"));
    if negb ok then preventDefault e else mret e
  else mret e.

(** Lines 1-35: the [DOMContentLoaded] callback. *)
Definition onDOMContentLoaded : JSM unit :=
  toggleButtons ← querySelectorAll (has_class "toggle-password");
  forEach toggleButtons (λ button, addEventListener button TogglePasswordClick);;
  tooltipTriggerList ← querySelectorAll (has_attribute "data-bs-toggle" "tooltip");
  tooltipList ← map_array tooltipTriggerList new_bootstrap_Tooltip;
  deleteButtons ← querySelectorAll (has_class "btn-danger");
  forEach deleteButtons (λ btn, addEventListener btn ConfirmDeleteClick).

(** Lines 44-47: [showToast(message, type = 'info')].  The default applies
    when the argument is [undefined], which is also what an omitted argument
    is. *)
Definition showToast (message : string) (type : Value) : JSM unit :=
  let type := match type with VUndefined => VString "info" | v => v end in
  console_log ("[" +:+ ToString type +:+ "] " +:+ message).

(** *** Dispatch of a click

    The listeners registered on the target run in registration order on one
    event object.  An exception thrown by a listener is reported by the
    browser and does not stop the dispatch. *)
Definition run_listener (l : Listener) (target : NodeId) (e : Event)
    (w : World) : World * Event :=
  match l with
  | TogglePasswordClick =>
      (fst (togglePassword_click target w), e)
  | ConfirmDeleteClick =>
      match confirmDelete_click target e w with
      | (w', Normal e') => (w', e')
      | (w', Throw _) => (w', e)
      end
  end.

Fixpoint run_listeners (ls : list (NodeId * Listener)) (target : NodeId)
    (e : Event) (w : World) : World * Event :=
  match ls with
  | [] => (w, e)
  | (t, l) :: ls' =>
      if Nat.eqb t target then
        let '(w', e') := run_listener l target e w in
        run_listeners ls' target e' w'
      else run_listeners ls' target e w
  end.

Definition click (target : NodeId) (w : World) : World * Event :=
  run_listeners (listeners w) target (mkEvent true false) w.

(** A sequence of clicks, one target after the other. *)
Fixpoint clicks (targets : list NodeId) (w : World) : World :=
  match targets with
  | [] => w
  | t :: ts => clicks ts (fst (click t w))
  end.

End Script.

(** ** Dates: the part of ECMA-262 (clause 21.4) and ECMA-402 behind
    [new Date(dateString).toLocaleDateString(undefined, options)]

    A time value is an integral number of milliseconds since the epoch, or
    NaN; [option Z] with [None] for NaN.  All of the arithmetic below is on
    integers well inside the range in which a Number is exact. *)

Module ECMA.

Local Open Scope Z_scope.

Definition msPerDay : Z := 86400000.

(** Day(t) = floor(t / msPerDay). *)
Definition Day (t : Z) : Z := t / msPerDay.

Definition DaysInYear (y : Z) : Z :=
  if negb (y mod 4 =? 0) then 365
  else if negb (y mod 100 =? 0) then 366
  else if negb (y mod 400 =? 0) then 365
  else 366.

Definition DayFromYear (y : Z) : Z :=
  365 * (y - 1970) + (y - 1969) / 4 - (y - 1901) / 100 + (y - 1601) / 400.

Definition TimeFromYear (y : Z) : Z := msPerDay * DayFromYear y.

(** The largest [y] with [DayFromYear y <= d], searched upwards from a year
    that is not after it. *)
Fixpoint year_search (fuel : nat) (d y : Z) : Z :=
  match fuel with
  | O => y
  | S fuel' => if DayFromYear (y + 1) <=? d then year_search fuel' d (y + 1) else y
  end.

Definition year_of_day (d : Z) : Z :=
  year_search (Z.to_nat (Z.abs d / 100000 + 2)) d
              (1970 + (if 0 <=? d then d / 366 else d / 365)).

(** YearFromTime(t): the largest [y] such that [TimeFromYear y <= t]. *)
Definition YearFromTime (t : Z) : Z := year_of_day (Day t).

Definition InLeapYear (t : Z) : Z :=
  if DaysInYear (YearFromTime t) =? 366 then 1 else 0.

Definition DayWithinYear (t : Z) : Z := Day t - DayFromYear (YearFromTime t).

(** MonthFromTime(t): 0 for January to 11 for December. *)
Definition MonthFromTime (t : Z) : Z :=
  let d := DayWithinYear t in
  let leap := InLeapYear t in
  if d <? 31 then 0
  else if d <? 59 + leap then 1
  else if d <? 90 + leap then 2
  else if d <? 120 + leap then 3
  else if d <? 151 + leap then 4
  else if d <? 181 + leap then 5
  else if d <? 212 + leap then 6
  else if d <? 243 + leap then 7
  else if d <? 273 + leap then 8
  else if d <? 304 + leap then 9
  else if d <? 334 + leap then 10
  else 11.

(** DateFromTime(t): the day of the month, from 1. *)
Definition DateFromTime (t : Z) : Z :=
  let d := DayWithinYear t in
  let leap := InLeapYear t in
  match MonthFromTime t with
  | 0 => d + 1
  | 1 => d - 30
  | 2 => d - 58 - leap
  | 3 => d - 89 - leap
  | 4 => d - 119 - leap
  | 5 => d - 150 - leap
  | 6 => d - 180 - leap
  | 7 => d - 211 - leap
  | 8 => d - 242 - leap
  | 9 => d - 272 - leap
  | 10 => d - 303 - leap
  | _ => d - 333 - leap
  end.

(** The number of days before the first of month [m] (0 to 11) in a year
    with [leap] extra days. *)
Definition days_before_month (m leap : Z) : Z :=
  match m with
  | 0 => 0
  | 1 => 31
  | 2 => 59 + leap
  | 3 => 90 + leap
  | 4 => 120 + leap
  | 5 => 151 + leap
  | 6 => 181 + leap
  | 7 => 212 + leap
  | 8 => 243 + leap
  | 9 => 273 + leap
  | 10 => 304 + leap
  | _ => 334 + leap
  end.

Definition days_in_month (y m : Z) : Z :=
  match m with
  | 1 => if DaysInYear y =? 366 then 29 else 28
  | 3 | 5 | 8 | 10 => 30
  | _ => 31
  end.

(** MakeDay(year, month, date) for a month from 0 to 11: the day number of
    the first of that month, plus [date - 1]. *)
Definition MakeDay (year month date : Z) : Z :=
  DayFromYear year
  + days_before_month month (if DaysInYear year =? 366 then 1 else 0)
  + date - 1.

(** MakeDate(day, time). *)
Definition MakeDate (day time : Z) : Z := day * msPerDay + time.

(** TimeClip: NaN beyond 8.64e15 milliseconds from the epoch. *)
Definition TimeClip (tv : option Z) : option Z :=
  match tv with
  | Some t => if Z.abs t <=? 8640000000000000 then Some t else None
  | None => None
  end.

(** *** Date.parse

    The date-only forms of the Date Time String Format, [YYYY], [YYYY-MM]
    and [YYYY-MM-DD], are recognised here, and are interpreted as UTC.  Every
    other string, and a date-only form whose month or day is out of range,
    goes to the implementation's parser. *)

Definition digit (c : ascii) : option Z :=
  let n := Z.of_nat (nat_of_ascii c) in
  if (48 <=? n) && (n <=? 57) then Some (n - 48) else None.

Definition number2 (a b : ascii) : option Z :=
  x ← digit a; y ← digit b; Some (10 * x + y).

Definition number4 (a b c d : ascii) : option Z :=
  x ← number2 a b; y ← number2 c d; Some (100 * x + y).

Definition is_hyphen (c : ascii) : bool := Ascii.eqb c "-"%char.

(** The (year, month from 1, day from 1) a date-only form denotes. *)
Definition parse_date_only (s : string) : option (Z * Z * Z) :=
  match list_ascii_of_string s with
  | [y1; y2; y3; y4] =>
      y ← number4 y1 y2 y3 y4; Some (y, 1, 1)
  | [y1; y2; y3; y4; h1; m1; m2] =>
      y ← number4 y1 y2 y3 y4; m ← number2 m1 m2;
      if is_hyphen h1 then Some (y, m, 1) else None
  | [y1; y2; y3; y4; h1; m1; m2; h2; d1; d2] =>
      y ← number4 y1 y2 y3 y4; m ← number2 m1 m2; d ← number2 d1 d2;
      if is_hyphen h1 && is_hyphen h2 then Some (y, m, d) else None
  | _ => None
  end.

Definition legal_date (ymd : Z * Z * Z) : bool :=
  let '(y, m, d) := ymd in
  (1 <=? m) && (m <=? 12) && (1 <=? d) && (d <=? days_in_month y (m - 1)).

Definition Date_parse (host : Host) (s : string) : option Z :=
  match parse_date_only s with
  | Some (y, m, d) =>
      if legal_date (y, m, d)
      then Some (MakeDate (MakeDay y (m - 1) d) 0)
      else implementation_parse host s
  | None => implementation_parse host s
  end.

(** [new Date(dateString)] for a string argument: the time value of the
    new object. *)
Definition new_Date (host : Host) (dateString : string) : option Z :=
  TimeClip (Date_parse host dateString).

(** LocalTime(t) = t + LocalTZA(t, true). *)
Definition LocalTime (host : Host) (t : Z) : Z := t + LocalTZA host t.

(** *** Date.prototype.toLocaleDateString (ECMA-402)

    The Gregorian calendar with Latin digits.  The year field is the year
    of the era. *)

Record DateTimeFormatOptions : Type := mkOptions {
  year : Value;
  month : Value;
  day : Value
}.

(** GetOption for a string-valued option: [undefined] stays unset, a
    value outside the allowed ones is a RangeError. *)
Definition GetOption (v : Value) (allowed : list string)
    : Completion (option string) :=
  match v with
  | VUndefined => Normal None
  | _ =>
      if existsb (String.eqb (ToString v)) allowed
      then Normal (Some (ToString v))
      else Throw (RangeError ("Value " +:+ ToString v +:+ " out of range"))
  end.

Definition decimal (n : Z) : string :=
  NilZero.string_of_uint (N.to_uint (Z.to_N n)).

Definition year_of_era (y : Z) : Z := if y <=? 0 then 1 - y else y.

Definition month_short (l : Locale) (m : Z) : string :=
  match m with
  | 0 => "Jan" | 1 => "Feb" | 2 => "Mar" | 3 => "Apr" | 4 => "May"
  | 5 => "Jun" | 6 => "Jul" | 7 => "Aug"
  | 8 => match l with en_US => "Sep" | en_GB => "Sept" end
  | 9 => "Oct" | 10 => "Nov" | _ => "Dec"
  end%string.

(** Numeric year, abbreviated month, numeric day. *)
Definition format_year_short_day (l : Locale) (y m d : Z) : string :=
  match l with
  | en_US => month_short l m +:+ " " +:+ decimal d +:+ ", " +:+ decimal (year_of_era y)
  | en_GB => decimal d +:+ " " +:+ month_short l m +:+ " " +:+ decimal (year_of_era y)
  end.

Definition is_style (o : option string) (style : string) : bool :=
  match o with
  | Some s => String.eqb s style
  | None => false
  end.

Definition FormatDateTime (host : Host) (l : Locale)
    (ys ms ds : option string) (t : Z) : string :=
  let lt := LocalTime host t in
  if is_style ys "numeric" && is_style ms "short" && is_style ds "numeric"
  then format_year_short_day l (YearFromTime lt) (MonthFromTime lt) (DateFromTime lt)
  else locale_patterns host l ys ms ds
         (YearFromTime lt) (MonthFromTime lt) (DateFromTime lt).

(** [date.toLocaleDateString(undefined, options)] on a date with time value
    [tv].  An invalid date is answered before the options are read. *)
Definition toLocaleDateString (host : Host) (tv : option Z)
    (options : DateTimeFormatOptions) : Completion string :=
  match tv with
  | None => Normal "Invalid Date"
  | Some t =>
      ys ← GetOption (year options) ["2-digit"; "numeric"];
      ms ← GetOption (month options) ["2-digit"; "numeric"; "narrow"; "short"; "long"];
      ds ← GetOption (day options) ["2-digit"; "numeric"];
      Normal (FormatDateTime host (defaultLocale host) ys ms ds t)
  end.

End ECMA.

(** Lines 38-41: [formatDate(dateString)]. *)
Definition formatDate (host : Host) (dateString : string) : Completion string :=
  let options :=
    ECMA.mkOptions (VString "numeric") (VString "short") (VString "numeric") in
  ECMA.toLocaleDateString host (ECMA.new_Date host dateString) options.

(** ** Vocabulary of the specification *)

(** The masking mode of an input: masked when its type is ['password'],
    revealed otherwise. *)
Definition masked (el : Element) : bool := strict_eq_string (type el) "password".

(** An [input] element; its [type] always reads as a string. *)
Definition is_input (el : Element) : bool :=
  String.eqb (tagName el) "INPUT"
  && match type el with VString _ => true | _ => false end.

(** What a click on a control assigns, from the input it finds. *)
Definition flipped_type (input : Element) : Value :=
  VString (if masked input then "text" else "password").

Definition flipped_icon (input : Element) : string :=
  if masked input then icon_eye_slash else icon_eye.

(** The icon that goes with a masking mode: the open eye over a masked
    input, the closed eye over a revealed one. *)
Definition icon_for (input : Element) : string :=
  if masked input then icon_eye else icon_eye_slash.

(** The pair the toggle handler works on: the [type] of the preceding
    sibling and the [innerHTML] of the control. *)
Definition toggle_state (w : World) (this : NodeId) : option (Value * string) :=
  button ← nodes w !! this;
  i ← previousElementSibling button;
  input ← nodes w !! i;
  Some (type input, innerHTML button).

(** A control with an input before it. *)
Definition toggle_with_input (w : World) (this : NodeId) : bool :=
  match nodes w !! this with
  | Some button =>
      match previousElementSibling button ≫= (λ i, nodes w !! i) with
      | Some input => is_input input
      | None => false
      end
  | None => false
  end.

(** Mode and icon agree. *)
Definition agree (w : World) (this : NodeId) : bool :=
  match toggle_state w this with
  | Some (t, html) =>
      String.eqb html
        (if strict_eq_string t "password" then icon_eye else icon_eye_slash)
  | None => false
  end.

(** The same, spelled out: the control has an input before it and shows
    the icon of that input's mode. *)
Definition in_agreement (w : World) (this : NodeId) : Prop :=
  ∃ button i input,
    nodes w !! this = Some button
    ∧ previousElementSibling button = Some i
    ∧ nodes w !! i = Some input
    ∧ is_input input = true
    ∧ innerHTML button = icon_for input.

(** The two states the handler itself produces. *)
Definition canonical (st : Value * string) : Prop :=
  st = (VString "password", icon_eye) ∨ st = (VString "text", icon_eye_slash).

(** No element is the previous sibling of two elements. *)
Definition siblings_wf (w : World) : Prop :=
  map_Forall (λ a ea,
    map_Forall (λ b eb,
      is_Some (previousElementSibling ea) →
      previousElementSibling ea = previousElementSibling eb → a = b)
      (nodes w))
    (nodes w).

#[global] Instance siblings_wf_dec (w : World) : Decision (siblings_wf w).
Proof. unfold siblings_wf. apply _. Defined.

(** What every listener preserves: siblings stay distinct and the control
    stays in agreement with its input. *)
Definition toggle_invariant (this : NodeId) (w : World) : Prop :=
  siblings_wf w ∧ in_agreement w this.

(** The effects a computation added to the trace. *)
Definition new_effects (w w' : World) : list Effect :=
  drop (length (trace w)) (trace w').

Definition substring_of (needle hay : string) : Prop :=
  ∃ pre post, hay = pre +:+ needle +:+ post.

(** The world after two click events on one control, each handler run
    starting from the world the previous one left. *)
Definition two_clicks (this : NodeId) (w : World) : World :=
  fst (togglePassword_click this (fst (togglePassword_click this w))).

(** ** A page and three hosts, for the examples *)

Module Demo.

Definition attrs (l : list (string * string)) : gmap string string :=
  list_to_map l.

(** A login form (password input 1 and its control 2), three delete
    buttons (3 with a prompt, 4 without the attribute, 5 with an empty one),
    a control with nothing before it (6), and a password input (7) whose
    control (8) starts with the crossed-out eye. *)
Definition page : World :=
  mkWorld
    (list_to_map
       [ (1, mkElement "INPUT" ["form-control"] (attrs [("type", "password")])
               (VString "password") "" None);
         (2, mkElement "BUTTON" ["btn"; "toggle-password"] ∅
               VUndefined icon_eye (Some 1));
         (3, mkElement "A" ["btn"; "btn-danger"]
               (attrs [("data-confirm", "Delete this record?")])
               VUndefined "Delete" (Some 2));
         (4, mkElement "A" ["btn"; "btn-danger"] ∅ VUndefined "Remove" (Some 3));
         (5, mkElement "A" ["btn"; "btn-danger"] (attrs [("data-confirm", "")])
               VUndefined "Purge" (Some 4));
         (6, mkElement "SPAN" ["toggle-password"] ∅ VUndefined icon_eye None);
         (7, mkElement "INPUT" [] (attrs [("type", "password")])
               (VString "password") "" (Some 6));
         (8, mkElement "BUTTON" ["toggle-password"] ∅ VUndefined
               icon_eye_slash (Some 7)) ])
    [1; 2; 3; 4; 5; 6; 7; 8] [] [].

Definition no_patterns
    : Locale → option string → option string → option string → Z → Z → Z → string :=
  λ _ _ _ _ _ _ _, "".

(** A user who accepts every dialog, in UTC. *)
Definition utc : Host :=
  mkHost (λ _, true) true (λ _, 0%Z) en_US (λ _, None) no_patterns.

(** A user who rejects every dialog, in New York in winter (UTC-5). *)
Definition new_york : Host :=
  mkHost (λ _, false) true (λ _, (-18000000)%Z) en_US (λ _, None) no_patterns.

(** Kolkata (UTC+5:30). *)
Definition kolkata : Host :=
  mkHost (λ _, true) true (λ _, 19800000%Z) en_US (λ _, None) no_patterns.

(** The page once the [DOMContentLoaded] callback has run. *)
Definition loaded : World := fst (onDOMContentLoaded utc page).

End Demo.




(** ** A second page, with tooltips *)

Module Listing.

(** A link with a tooltip (1), a delete button with a prompt and a tooltip
    (2), a password input (3) and its control (4), and a badge with a
    tooltip (5). *)
Definition page : World :=
  mkWorld
    (list_to_map
       [ (1, mkElement "A" ["btn"]
               (Demo.attrs [("data-bs-toggle", "tooltip"); ("title", "Edit")])
               VUndefined "Edit" None);
         (2, mkElement "BUTTON" ["btn"; "btn-danger"]
               (Demo.attrs [("data-bs-toggle", "tooltip");
                            ("data-confirm", "Remove item?")])
               (VString "submit") "Remove" (Some 1));
         (3, mkElement "INPUT" ["form-control"] (Demo.attrs [("type", "password")])
               (VString "password") "" None);
         (4, mkElement "BUTTON" ["toggle-password"] ∅ VUndefined icon_eye (Some 3));
         (5, mkElement "SPAN" ["badge"] (Demo.attrs [("data-bs-toggle", "tooltip")])
               VUndefined "new" (Some 4)) ])
    [1; 2; 3; 4; 5] [] [].


End Listing.

(** * Theorems *)

(** ** Running the handlers *)

Ltac unfold_jsm :=
  unfold mbind, mret, JSM_mbind, JSM_mret, JSM_bind, JSM_ret, update, throw,
    assign, deref in *; simpl in *.

(** The toggle handler, run on a control whose previous sibling is in the
    document: it returns normally, having written the sibling's [type] and
    then the control's [innerHTML]. *)
Lemma togglePassword_click_run (w : World) (this i : NodeId)
    (button input : Element) :
  nodes w !! this = Some button →
  previousElementSibling button = Some i →
  nodes w !! i = Some input →
  togglePassword_click this w =
    (set_nodes (alter (set_innerHTML (flipped_icon input)) this)
       (set_nodes (alter (set_type (flipped_type input)) i) w),
     Normal tt).
Proof.
  intros Hthis Hprev Hi.
  unfold togglePassword_click. unfold_jsm.
  rewrite Hthis, Hprev. simpl. rewrite Hi.
  unfold flipped_icon, flipped_type, masked.
  destruct (strict_eq_string (type input) "password"); reflexivity.
Qed.

(** Without such a sibling the handler throws before it writes. *)
Lemma togglePassword_click_throws (w : World) (this : NodeId) :
  ((nodes w !! this) ≫= previousElementSibling) ≫= (λ i, nodes w !! i) = None →
  ∃ msg, togglePassword_click this w = (w, Throw (TypeError msg)).
Proof.
  intros H. unfold togglePassword_click. unfold_jsm.
  destruct (nodes w !! this) as [button|]; simpl in *; [|eauto].
  destruct (previousElementSibling button) as [i|]; simpl in *; [rewrite H|]; eauto.
Qed.

(** Reading the store after the two writes: every element is still there,
    with the same tag and the same previous sibling; only the [type] of [i]
    and the [innerHTML] of [this] have changed. *)
Lemma toggle_writes_lookup (m : gmap NodeId Element) (this i k : NodeId)
    (el : Element) (v : Value) (html : string) :
  m !! k = Some el →
  ∃ el', alter (set_innerHTML html) this (alter (set_type v) i m) !! k = Some el'
         ∧ previousElementSibling el' = previousElementSibling el
         ∧ tagName el' = tagName el
         ∧ type el' = (if decide (k = i) then v else type el)
         ∧ innerHTML el' = (if decide (k = this) then html else innerHTML el).
Proof.
  intros Hk. rewrite !lookup_alter.
  destruct (decide (this = k)) as [->|]; destruct (decide (i = k)) as [->|];
    rewrite ?lookup_alter_eq, ?lookup_alter_ne, ?Hk by done; simpl;
    eexists; (split; [reflexivity|]);
    repeat case_decide; try congruence; auto.
Qed.

Lemma toggle_writes_lookup_inv (m : gmap NodeId Element) (this i k : NodeId)
    (el' : Element) (v : Value) (html : string) :
  alter (set_innerHTML html) this (alter (set_type v) i m) !! k = Some el' →
  ∃ el, m !! k = Some el
        ∧ previousElementSibling el' = previousElementSibling el.
Proof.
  intros H. destruct (m !! k) as [el|] eqn:Hk.
  - destruct (toggle_writes_lookup m this i k el v html Hk) as (el2 & H2 & Hp & _).
    exists el. split; [reflexivity|]. congruence.
  - apply lookup_alter_None with (f := set_type v) (i := i) in Hk.
    apply lookup_alter_None with (f := set_innerHTML html) (i := this) in Hk.
    congruence.
Qed.

Lemma masked_flipped (input input' : Element) :
  type input' = flipped_type input → masked input' = negb (masked input).
Proof.
  unfold flipped_type. intros Hty. unfold masked at 1. rewrite Hty.
  destruct (masked input); reflexivity.
Qed.

Lemma masked_true_type (el : Element) :
  masked el = true ↔ type el = VString "password".
Proof.
  unfold masked, strict_eq_string.
  destruct (type el) as [| |s]; try (split; discriminate).
  rewrite String.eqb_eq. split; congruence.
Qed.

Lemma flipped_icon_is_icon_for (input input' : Element) :
  type input' = flipped_type input → flipped_icon input = icon_for input'.
Proof.
  intros Hty. unfold icon_for. rewrite (masked_flipped _ _ Hty).
  unfold flipped_icon. destruct (masked input); reflexivity.
Qed.

(** What one run of the handler leaves in the store. *)
Lemma togglePassword_click_post (w : World) (this i : NodeId)
    (button input : Element) :
  nodes w !! this = Some button →
  previousElementSibling button = Some i →
  nodes w !! i = Some input →
  ∃ input' button',
    nodes (fst (togglePassword_click this w)) !! i = Some input'
    ∧ nodes (fst (togglePassword_click this w)) !! this = Some button'
    ∧ type input' = flipped_type input
    ∧ tagName input' = tagName input
    ∧ innerHTML button' = flipped_icon input
    ∧ previousElementSibling button' = Some i.
Proof.
  intros Hthis Hprev Hi.
  rewrite (togglePassword_click_run w this i button input Hthis Hprev Hi). simpl.
  destruct (toggle_writes_lookup (nodes w) this i i input (flipped_type input)
              (flipped_icon input) Hi) as (input' & Hi' & _ & Htag & Hty & _).
  destruct (toggle_writes_lookup (nodes w) this i this button (flipped_type input)
              (flipped_icon input) Hthis) as (button' & Hb' & Hp & _ & _ & Hhtml).
  rewrite decide_True in Hty by done. rewrite decide_True in Hhtml by done.
  exists input', button'. rewrite Hp. auto 10.
Qed.

(** ** The password-visibility toggle *)

(** C1.  A click on a control whose immediately preceding sibling is an
    input returns normally; afterwards the input is masked exactly when it
    was not before, its [type] being ['text'] after ['password'] and
    ['password'] after anything else, and the control shows the icon of the
    new mode: [fa-eye-slash] over a revealed input, [fa-eye] over a masked
    one. *)
Theorem toggle_click_flips_mode_and_icon (w : World) (this i : NodeId)
    (button input : Element) :
  nodes w !! this = Some button →
  previousElementSibling button = Some i →
  nodes w !! i = Some input →
  is_input input = true →
  ∃ w' input' button',
    togglePassword_click this w = (w', Normal tt)
    ∧ nodes w' !! i = Some input'
    ∧ nodes w' !! this = Some button'
    ∧ masked input' = negb (masked input)
    ∧ type input' = VString (if masked input then "text" else "password")
    ∧ innerHTML button' = (if masked input' then icon_eye else icon_eye_slash)
    ∧ is_input input' = true.
Proof.
  intros Hthis Hprev Hi Hinput.
  destruct (togglePassword_click_post w this i button input Hthis Hprev Hi)
    as (input' & button' & Hi' & Hb' & Hty & Htag & Hhtml & _).
  pose proof (togglePassword_click_run w this i button input Hthis Hprev Hi) as Hrun.
  rewrite Hrun in Hi', Hb'. simpl in Hi', Hb'.
  eexists _, input', button'.
  split; [exact Hrun|].
  repeat split; try assumption.
  - exact (masked_flipped input input' Hty).
  - rewrite Hhtml. exact (flipped_icon_is_icon_for input input' Hty).
  - unfold is_input in *. rewrite Htag, Hty.
    apply andb_true_iff in Hinput as [-> _]. reflexivity.
Qed.

Lemma toggle_click_flips_mode_and_icon_witness :
  ∃ w' input' button',
    togglePassword_click 2 Demo.page = (w', Normal tt)
    ∧ nodes w' !! 1 = Some input'
    ∧ nodes w' !! 2 = Some button'
    ∧ masked input' = false
    ∧ type input' = VString "text"
    ∧ innerHTML button' = icon_eye_slash
    ∧ is_input input' = true.
Proof.
  destruct (toggle_click_flips_mode_and_icon Demo.page 2 1
              (mkElement "BUTTON" ["btn"; "toggle-password"] ∅
                 VUndefined icon_eye (Some 1))
              (mkElement "INPUT" ["form-control"]
                 (Demo.attrs [("type", "password")])
                 (VString "password") "" None)
              eq_refl eq_refl eq_refl eq_refl)
    as (w' & input' & button' & H).
  exists w', input', button'.
  destruct H as (H1 & H2 & H3 & H4 & H5 & H6 & H7).
  repeat split; try assumption.
  rewrite H6, H4. reflexivity.
Defined.

(** C2, as stated, fails.  On the demo page the control 8 follows the
    password input 7 and starts with the crossed-out eye; two clicks leave
    the input's type as it was and the control with the open eye, not with
    its original icon. *)
Lemma two_clicks_do_not_restore_counterexample :
  toggle_with_input Demo.page 8 = true
  ∧ toggle_state Demo.page 8 = Some (VString "password", icon_eye_slash)
  ∧ toggle_state (two_clicks 8 Demo.page) 8 = Some (VString "password", icon_eye)
  ∧ toggle_state (two_clicks 8 Demo.page) 8 ≠ toggle_state Demo.page 8.
Proof.
  repeat split; try (vm_compute; reflexivity).
  vm_compute. discriminate.
Qed.

(** C2, amended.  Two clicks on a control with an input before it always
    restore the masking mode; they restore the pair of [input.type] and the
    control's [innerHTML] exactly when that pair was one of the two the
    handler itself writes: ['password'] with the [fa-eye] icon, or ['text']
    with the [fa-eye-slash] icon. *)
Theorem two_clicks_restore_iff_canonical (w : World) (this i : NodeId)
    (button input : Element) :
  nodes w !! this = Some button →
  previousElementSibling button = Some i →
  nodes w !! i = Some input →
  is_input input = true →
  ∃ input2 button2,
    nodes (two_clicks this w) !! i = Some input2
    ∧ nodes (two_clicks this w) !! this = Some button2
    ∧ masked input2 = masked input
    ∧ ((type input2, innerHTML button2) = (type input, innerHTML button)
       ↔ canonical (type input, innerHTML button)).
Proof.
  intros Hthis Hprev Hi _.
  destruct (togglePassword_click_post w this i button input Hthis Hprev Hi)
    as (input1 & button1 & Hi1 & Hb1 & Hty1 & _ & _ & Hp1).
  destruct (togglePassword_click_post _ this i button1 input1 Hb1 Hp1 Hi1)
    as (input2 & button2 & Hi2 & Hb2 & Hty2 & _ & Hhtml2 & _).
  exists input2, button2. fold (two_clicks this w) in Hi2, Hb2.
  pose proof (masked_flipped _ _ Hty1) as Hm1.
  pose proof (masked_flipped _ _ Hty2) as Hm2.
  rewrite Hm1, negb_involutive in Hm2.
  repeat split; try assumption.
  - intros Heq. injection Heq as Ht Hh.
    rewrite Hty2 in Ht. rewrite Hhtml2 in Hh.
    unfold flipped_type, flipped_icon in *. rewrite Hm1 in *.
    unfold canonical. rewrite <- Ht, <- Hh.
    destruct (masked input); simpl; auto.
  - unfold canonical. rewrite Hty2, Hhtml2.
    unfold flipped_type, flipped_icon. rewrite Hm1.
    intros [Hc|Hc]; injection Hc as Ht Hh.
    + apply masked_true_type in Ht as Hm. rewrite Hm, Ht, Hh. reflexivity.
    + assert (masked input = false) as Hm
        by (unfold masked; rewrite Ht; reflexivity).
      rewrite Hm, Ht, Hh. reflexivity.
Qed.

Lemma two_clicks_restore_iff_canonical_witness :
  ∃ input2 button2,
    nodes (two_clicks 2 Demo.page) !! 1 = Some input2
    ∧ nodes (two_clicks 2 Demo.page) !! 2 = Some button2
    ∧ masked input2 = true
    ∧ ((type input2, innerHTML button2) = (VString "password", icon_eye)
       ↔ canonical (VString "password", icon_eye)).
Proof.
  exact (two_clicks_restore_iff_canonical Demo.page 2 1
           (mkElement "BUTTON" ["btn"; "toggle-password"] ∅
              VUndefined icon_eye (Some 1))
           (mkElement "INPUT" ["form-control"]
              (Demo.attrs [("type", "password")])
              (VString "password") "" None)
           eq_refl eq_refl eq_refl eq_refl).
Defined.

(** ** Agreement of mode and icon as an invariant *)

Lemma in_agreement_iff (w : World) (this : NodeId) :
  in_agreement w this ↔ toggle_with_input w this = true ∧ agree w this = true.
Proof.
  unfold in_agreement, toggle_with_input, agree, toggle_state, icon_for, masked.
  split.
  - intros (button & i & input & -> & Hp & Hi & Hin & Hhtml). simpl.
    rewrite Hp. simpl. rewrite Hi. simpl. split; [assumption|].
    rewrite Hhtml. apply String.eqb_refl.
  - intros [H1 H2].
    destruct (nodes w !! this) as [button|]; simpl in *; [|discriminate].
    destruct (previousElementSibling button) as [i|] eqn:Hp; simpl in *; [|discriminate].
    destruct (nodes w !! i) as [input|] eqn:Hi; simpl in *; [|discriminate].
    exists button, i, input. apply String.eqb_eq in H2. auto.
Qed.

Lemma in_agreement_nodes (w w' : World) (this : NodeId) :
  nodes w' = nodes w → in_agreement w this → in_agreement w' this.
Proof. unfold in_agreement. intros ->. trivial. Qed.

Lemma siblings_wf_nodes (w w' : World) :
  nodes w' = nodes w → siblings_wf w → siblings_wf w'.
Proof. unfold siblings_wf. intros ->. trivial. Qed.

(** The handler does not change who precedes whom. *)
Lemma togglePassword_click_siblings_wf (t : NodeId) (w : World) :
  siblings_wf w → siblings_wf (fst (togglePassword_click t w)).
Proof.
  intros Hwf.
  destruct (((nodes w !! t) ≫= previousElementSibling) ≫= (λ i, nodes w !! i))
    as [ej|] eqn:Hrun.
  - destruct (nodes w !! t) as [bt|] eqn:Ht; simpl in Hrun; [|discriminate].
    destruct (previousElementSibling bt) as [j|] eqn:Hj; simpl in Hrun; [|discriminate].
    rewrite (togglePassword_click_run w t j bt ej Ht Hj Hrun). simpl.
    unfold siblings_wf in *. simpl.
    intros a ea Ha b eb Hb.
    apply toggle_writes_lookup_inv in Ha as (ea0 & Ha0 & ->).
    apply toggle_writes_lookup_inv in Hb as (eb0 & Hb0 & ->).
    exact (Hwf a ea0 Ha0 b eb0 Hb0).
  - destruct (togglePassword_click_throws w t Hrun) as [msg ->]. exact Hwf.
Qed.

(** A click on any control, this one or another, keeps this control in
    agreement with its input.  That siblings are distinct is needed for
    another control only. *)
Lemma togglePassword_click_in_agreement (t this : NodeId) (w : World) :
  (t ≠ this → siblings_wf w) → in_agreement w this →
  in_agreement (fst (togglePassword_click t w)) this.
Proof.
  intros Hwf (button & i & input & Hthis & Hp & Hi & Hin & Hhtml).
  destruct (((nodes w !! t) ≫= previousElementSibling) ≫= (λ i, nodes w !! i))
    as [ej|] eqn:Hrun.
  2: { destruct (togglePassword_click_throws w t Hrun) as [msg ->].
       exists button, i, input. auto. }
  destruct (nodes w !! t) as [bt|] eqn:Ht; simpl in Hrun; [|discriminate].
  destruct (previousElementSibling bt) as [j|] eqn:Hj; simpl in Hrun; [|discriminate].
  rewrite (togglePassword_click_run w t j bt ej Ht Hj Hrun). simpl.
  destruct (toggle_writes_lookup (nodes w) t j this button (flipped_type ej)
              (flipped_icon ej) Hthis) as (button' & Hb' & Hp' & _ & _ & Hhtml').
  destruct (toggle_writes_lookup (nodes w) t j i input (flipped_type ej)
              (flipped_icon ej) Hi) as (input' & Hi' & _ & Htag' & Hty' & _).
  exists button', i, input'.
  split; [exact Hb'|]. split; [congruence|]. split; [exact Hi'|].
  destruct (decide (this = t)) as [->|Hne].
  - (* the click is on this control: [j] is its input *)
    assert (j = i) as -> by congruence.
    assert (ej = input) as -> by congruence.
    rewrite decide_True in Hty' by done.
    split.
    + unfold is_input in *. rewrite Htag', Hty'.
      apply andb_true_iff in Hin as [-> _]. reflexivity.
    + rewrite Hhtml'. exact (flipped_icon_is_icon_for input input' Hty').
  - (* the click is on another control: its sibling is not [i] *)
    assert (i ≠ j) as Hij.
    { intros <-. apply Hne.
      assert (t ≠ this) as Hne' by congruence.
      apply (Hwf Hne' this button Hthis t bt Ht); [rewrite Hp; eauto | congruence]. }
    rewrite decide_False in Hty' by done.
    split.
    + unfold is_input in *. rewrite Htag', Hty'. exact Hin.
    + rewrite Hhtml', Hhtml. unfold icon_for, masked. rewrite Hty'. reflexivity.
Qed.

(** The confirm handler, run on an element of the document. *)
Lemma confirmDelete_click_run (host : Host) (w : World) (this : NodeId)
    (btn : Element) (e : Event) :
  nodes w !! this = Some btn →
  confirmDelete_click host this e w =
    if ToBoolean (dataset btn "confirm") then
      let message := ToString (dataset btn "confirm") in
      if user_confirms host message
      then (emit (ConfirmDialog message) w, Normal e)
      else (emit PreventDefault (emit (ConfirmDialog message) w),
            Normal (mkEvent (cancelable e) (cancelable e || defaultPrevented e)))
    else (w, Normal e).
Proof.
  intros Hthis. unfold confirmDelete_click, confirm, preventDefault.
  unfold_jsm. rewrite Hthis.
  destruct (ToBoolean (dataset btn "confirm")); [|reflexivity].
  simpl. destruct (user_confirms host _); reflexivity.
Qed.

(** It never writes to the document. *)
Lemma confirmDelete_click_nodes (host : Host) (w : World) (this : NodeId)
    (e : Event) :
  nodes (fst (confirmDelete_click host this e w)) = nodes w.
Proof.
  destruct (nodes w !! this) as [btn|] eqn:Hthis.
  - rewrite (confirmDelete_click_run host w this btn e Hthis).
    destruct (ToBoolean _); [|reflexivity].
    simpl. destruct (user_confirms host _); reflexivity.
  - unfold confirmDelete_click. unfold_jsm. rewrite Hthis. reflexivity.
Qed.

Section Invariant.

Variable host : Host.
Variable this : NodeId.

Lemma run_listener_inv (l : Listener) (target : NodeId) (e : Event) (w : World) :
  toggle_invariant this w →
  toggle_invariant this (fst (run_listener host l target e w)).
Proof.
  intros [Hwf Hag]. destruct l; simpl.
  - split.
    + apply togglePassword_click_siblings_wf, Hwf.
    + apply togglePassword_click_in_agreement; auto.
  - pose proof (confirmDelete_click_nodes host w target e) as Hn.
    destruct (confirmDelete_click host target e w) as [w' [e'|err]];
      simpl in *; split;
      eauto using siblings_wf_nodes, in_agreement_nodes.
Qed.

Lemma run_listeners_inv (ls : list (NodeId * Listener)) (target : NodeId)
    (e : Event) (w : World) :
  toggle_invariant this w →
  toggle_invariant this (fst (run_listeners host ls target e w)).
Proof.
  revert e w. induction ls as [|[t l] ls IH]; intros e w Hinv; simpl; [exact Hinv|].
  destruct (Nat.eqb t target); [|apply IH, Hinv].
  pose proof (run_listener_inv l target e w Hinv) as Hstep.
  destruct (run_listener host l target e w) as [w' e']. apply IH, Hstep.
Qed.

Lemma clicks_inv (targets : list NodeId) (w : World) :
  toggle_invariant this w → toggle_invariant this (clicks host targets w).
Proof.
  revert w. induction targets as [|t ts IH]; intros w Hinv; simpl; [exact Hinv|].
  apply IH. unfold click. apply run_listeners_inv, Hinv.
Qed.

End Invariant.

(** Clicks on the control alone. *)
Lemma own_clicks_in_agreement (this : NodeId) (n : nat) (w : World) :
  in_agreement w this →
  in_agreement (Nat.iter n (λ w', fst (togglePassword_click this w')) w) this.
Proof.
  intros Hin. induction n as [|n IH]; simpl; [exact Hin|].
  apply togglePassword_click_in_agreement; [congruence | exact IH].
Qed.

(** C8.  From a state in which the icon of a control agrees with the
    masking mode of the input before it, they still agree after a run of the
    click handler on that control, after any number of such runs, and, no
    element being the previous sibling of two elements, after any sequence
    of clicks on any elements of the page, whichever listeners those
    elements carry. *)
Theorem agreement_is_invariant (host : Host) (w : World) (this : NodeId) :
  toggle_with_input w this = true →
  agree w this = true →
  agree (fst (togglePassword_click this w)) this = true
  ∧ (∀ n, agree (Nat.iter n (λ w', fst (togglePassword_click this w')) w) this = true)
  ∧ (siblings_wf w →
     ∀ targets,
       toggle_with_input (clicks host targets w) this = true
       ∧ agree (clicks host targets w) this = true).
Proof.
  intros Hvalid Hag.
  assert (in_agreement w this) as Hin by (apply in_agreement_iff; auto).
  split; [|split].
  - apply (own_clicks_in_agreement this 1 w), in_agreement_iff in Hin. tauto.
  - intros n.
    apply (own_clicks_in_agreement this n w), in_agreement_iff in Hin. tauto.
  - intros Hwf targets. apply in_agreement_iff.
    apply (clicks_inv host this targets w). split; assumption.
Qed.

Lemma agreement_is_invariant_witness :
  agree (fst (togglePassword_click 2 Demo.loaded)) 2 = true
  ∧ agree (Nat.iter 3 (λ w', fst (togglePassword_click 2 w')) Demo.loaded) 2 = true
  ∧ toggle_with_input (clicks Demo.new_york [2; 3; 8; 6; 2; 5; 2] Demo.loaded) 2 = true
  ∧ agree (clicks Demo.new_york [2; 3; 8; 6; 2; 5; 2] Demo.loaded) 2 = true.
Proof.
  destruct (agreement_is_invariant Demo.new_york Demo.loaded 2 eq_refl eq_refl)
    as (Hone & Hown & Hall).
  split; [exact Hone|]. split; [exact (Hown 3%nat)|].
  apply Hall. apply (bool_decide_unpack _). vm_compute. exact I.
Defined.

(** C9.  A click on a control with no previous element sibling throws: the
    handler reads [type] through [null].  Nothing has been written by
    then. *)
Theorem toggle_without_sibling_throws (w : World) (this : NodeId)
    (button : Element) :
  nodes w !! this = Some button →
  previousElementSibling button = None →
  togglePassword_click this w =
    (w, Throw (TypeError "Cannot read properties of null (reading 'type')")).
Proof.
  intros Hthis Hp. unfold togglePassword_click. unfold_jsm.
  rewrite Hthis, Hp. reflexivity.
Qed.

Lemma toggle_without_sibling_throws_witness :
  togglePassword_click 6 Demo.page =
    (Demo.page, Throw (TypeError "Cannot read properties of null (reading 'type')")).
Proof.
  exact (toggle_without_sibling_throws Demo.page 6
           (mkElement "SPAN" ["toggle-password"] ∅ VUndefined icon_eye None)
           eq_refl eq_refl).
Defined.

(** The handler returns normally exactly when the sibling is there. *)
Lemma togglePassword_click_normal_iff (w : World) (this : NodeId) :
  (∃ w', togglePassword_click this w = (w', Normal tt))
  ↔ is_Some (((nodes w !! this) ≫= previousElementSibling) ≫= (λ i, nodes w !! i)).
Proof.
  split.
  - intros [w' Hrun].
    destruct (((nodes w !! this) ≫= previousElementSibling) ≫= (λ i, nodes w !! i))
      eqn:Hs; [eauto|].
    destruct (togglePassword_click_throws w this Hs) as [msg Ht]. congruence.
  - intros [input Hs].
    destruct (nodes w !! this) as [button|] eqn:Hthis; simpl in Hs; [|discriminate].
    destruct (previousElementSibling button) as [i|] eqn:Hp; simpl in Hs; [|discriminate].
    eexists. exact (togglePassword_click_run w this i button input Hthis Hp Hs).
Qed.

(** ** Confirm before a destructive action *)

Lemma dataset_confirm (btn : Element) :
  dataset btn "confirm" =
    match attributes btn !! "data-confirm" with
    | Some s => VString s
    | None => VUndefined
    end.
Proof. reflexivity. Qed.

Lemma new_effects_emit (w : World) (e : Effect) :
  new_effects w (emit e w) = [e].
Proof. unfold new_effects, emit. simpl. apply drop_app_length. Qed.

Lemma new_effects_emit2 (w : World) (e1 e2 : Effect) :
  new_effects w (emit e2 (emit e1 w)) = [e1; e2].
Proof.
  unfold new_effects, emit. simpl. rewrite <- app_assoc. apply drop_app_length.
Qed.

(** C3.  On an element with a non-empty [data-confirm], the handler shows
    the prompt once; it calls [preventDefault] exactly when the user rejects
    it, and then the event is cancelled; when the user accepts, the event is
    left as it was.  The document is not touched. *)
Theorem confirm_cancels_iff_rejected (host : Host) (w : World) (this : NodeId)
    (btn : Element) (message : string) (e : Event) :
  nodes w !! this = Some btn →
  attributes btn !! "data-confirm" = Some message →
  message ≠ "" →
  ∃ w' e',
    confirmDelete_click host this e w = (w', Normal e')
    ∧ nodes w' = nodes w
    ∧ new_effects w w'
      = ConfirmDialog message
          :: (if user_confirms host message then [] else [PreventDefault])
    ∧ (PreventDefault ∈ new_effects w w' ↔ user_confirms host message = false)
    ∧ (user_confirms host message = true → e' = e)
    ∧ (user_confirms host message = false →
       defaultPrevented e' = cancelable e || defaultPrevented e).
Proof.
  intros Hthis Hattr Hne.
  rewrite (confirmDelete_click_run host w this btn e Hthis).
  rewrite dataset_confirm, Hattr. simpl.
  assert (String.eqb message "" = false) as -> by (apply String.eqb_neq, Hne).
  simpl. destruct (user_confirms host message) eqn:Hu.
  - eexists _, _. split; [reflexivity|].
    rewrite new_effects_emit. repeat split; try done.
    intros H. apply list_elem_of_singleton in H. discriminate.
  - eexists _, _. split; [reflexivity|].
    rewrite new_effects_emit2. repeat split; try done.
    intros _. apply list_elem_of_further, list_elem_of_singleton. reflexivity.
Qed.

Lemma confirm_cancels_iff_rejected_witness :
  ∃ w' e',
    confirmDelete_click Demo.new_york 3 (mkEvent true false) Demo.page
      = (w', Normal e')
    ∧ nodes w' = nodes Demo.page
    ∧ new_effects Demo.page w'
      = [ConfirmDialog "Delete this record?"; PreventDefault]
    ∧ PreventDefault ∈ new_effects Demo.page w'
    ∧ defaultPrevented e' = true.
Proof.
  destruct (confirm_cancels_iff_rejected Demo.new_york Demo.page 3
              (mkElement "A" ["btn"; "btn-danger"]
                 (Demo.attrs [("data-confirm", "Delete this record?")])
                 VUndefined "Delete" (Some 2))
              "Delete this record?" (mkEvent true false) eq_refl eq_refl
              ltac:(discriminate))
    as (w' & e' & Hrun & Hnodes & Heff & Hcall & _ & Hcancel).
  exists w', e'.
  repeat split; try assumption.
  - apply Hcall. reflexivity.
  - apply Hcancel. reflexivity.
Defined.

(** C4.  On an element without [data-confirm] the handler does nothing: no
    dialog, no [preventDefault], the world and the event are as they
    were. *)
Theorem no_prompt_no_effect (host : Host) (w : World) (this : NodeId)
    (btn : Element) (e : Event) :
  nodes w !! this = Some btn →
  attributes btn !! "data-confirm" = None →
  confirmDelete_click host this e w = (w, Normal e)
  ∧ new_effects w (fst (confirmDelete_click host this e w)) = [].
Proof.
  intros Hthis Hattr.
  rewrite (confirmDelete_click_run host w this btn e Hthis).
  rewrite dataset_confirm, Hattr. simpl. split; [reflexivity|].
  unfold new_effects. apply drop_all.
Qed.

Lemma no_prompt_no_effect_witness :
  confirmDelete_click Demo.new_york 4 (mkEvent true false) Demo.page
    = (Demo.page, Normal (mkEvent true false))
  ∧ new_effects Demo.page
      (fst (confirmDelete_click Demo.new_york 4 (mkEvent true false) Demo.page))
    = [].
Proof.
  exact (no_prompt_no_effect Demo.new_york Demo.page 4
           (mkElement "A" ["btn"; "btn-danger"] ∅ VUndefined "Remove" (Some 3))
           (mkEvent true false) eq_refl eq_refl).
Defined.

(** C10.  An empty [data-confirm] is falsy: the handler treats the element
    as one without the attribute. *)
Theorem empty_prompt_is_no_prompt (host : Host) (w : World) (this : NodeId)
    (btn : Element) (e : Event) :
  nodes w !! this = Some btn →
  attributes btn !! "data-confirm" = Some "" →
  confirmDelete_click host this e w = (w, Normal e)
  ∧ new_effects w (fst (confirmDelete_click host this e w)) = [].
Proof.
  intros Hthis Hattr.
  rewrite (confirmDelete_click_run host w this btn e Hthis).
  rewrite dataset_confirm, Hattr. simpl. split; [reflexivity|].
  unfold new_effects. apply drop_all.
Qed.

Lemma empty_prompt_is_no_prompt_witness :
  confirmDelete_click Demo.new_york 5 (mkEvent true false) Demo.page
    = (Demo.page, Normal (mkEvent true false))
  ∧ new_effects Demo.page
      (fst (confirmDelete_click Demo.new_york 5 (mkEvent true false) Demo.page))
    = [].
Proof.
  exact (empty_prompt_is_no_prompt Demo.new_york Demo.page 5
           (mkElement "A" ["btn"; "btn-danger"] (Demo.attrs [("data-confirm", "")])
              VUndefined "Purge" (Some 4))
           (mkEvent true false) eq_refl eq_refl).
Defined.

(** ** The toast stub *)

Lemma append_nil_r (s : string) : s +:+ "" = s.
Proof.
  induction s as [|c s IH]; [reflexivity|].
  change (String c (s +:+ "") = String c s). by rewrite IH.
Qed.

Lemma append_assoc (s1 s2 s3 : string) :
  (s1 +:+ s2) +:+ s3 = s1 +:+ s2 +:+ s3.
Proof.
  induction s1 as [|c s1 IH]; [reflexivity|].
  change (String c ((s1 +:+ s2) +:+ s3) = String c (s1 +:+ s2 +:+ s3)).
  by rewrite IH.
Qed.

(** C7.  [showToast(message, tag)] logs one record, [[tag] message], which
    contains both the tag and the message; it touches neither the document
    nor the listeners and calls nothing else; with the tag omitted it is
    [showToast(message, 'info')]. *)
Theorem showToast_logs_one_record (message tag : string) (w : World) :
  let record := "[" +:+ tag +:+ "] " +:+ message in
  showToast message (VString tag) w = (emit (ConsoleLog record) w, Normal tt)
  ∧ new_effects w (fst (showToast message (VString tag) w)) = [ConsoleLog record]
  ∧ substring_of tag record
  ∧ substring_of message record
  ∧ nodes (fst (showToast message (VString tag) w)) = nodes w
  ∧ listeners (fst (showToast message (VString tag) w)) = listeners w
  ∧ showToast message VUndefined w = showToast message (VString "info") w.
Proof.
  intros record.
  assert (showToast message (VString tag) w = (emit (ConsoleLog record) w, Normal tt))
    as Hrun by reflexivity.
  rewrite Hrun. simpl.
  split; [reflexivity|]. split; [apply new_effects_emit|].
  split; [exists "[", ("] " +:+ message); reflexivity|].
  split; [|auto].
  exists ("[" +:+ tag +:+ "] "), "".
  unfold record. by rewrite append_nil_r, !append_assoc.
Qed.

Example showToast_saved_success (w : World) :
  new_effects w (fst (showToast "Saved" (VString "success") w))
  = [ConsoleLog "[success] Saved"].
Proof. exact (new_effects_emit w (ConsoleLog "[success] Saved")). Qed.

(** ** Dates *)

Section DateArithmetic.

Import ECMA.
Local Open Scope Z_scope.

(** [year_search] stops at the year of the day, given a start that is not
    after it and enough fuel to pass it. *)
Lemma year_search_spec (fuel : nat) (d y : Z) :
  DayFromYear y <= d →
  d < DayFromYear (y + Z.of_nat fuel) →
  DayFromYear (year_search fuel d y) <= d < DayFromYear (year_search fuel d y + 1).
Proof.
  revert y. induction fuel as [|fuel IH]; intros y Hlo Hhi.
  - rewrite Z.add_0_r in Hhi. lia.
  - simpl. destruct (DayFromYear (y + 1) <=? d) eqn:Hnext.
    + apply IH; [lia|]. replace (y + 1 + Z.of_nat fuel) with (y + Z.of_nat (S fuel)) by lia.
      exact Hhi.
    + lia.
Qed.

(** YearFromTime meets its definition in ECMA-262: the year of [t] is the
    largest [y] with [TimeFromYear y <= t]. *)
Lemma year_of_day_spec (d : Z) :
  DayFromYear (year_of_day d) <= d < DayFromYear (year_of_day d + 1).
Proof.
  unfold year_of_day. apply year_search_spec.
  - unfold DayFromYear. destruct (0 <=? d) eqn:Hd; Z.div_mod_to_equations; lia.
  - rewrite Z2Nat.id by (Z.div_mod_to_equations; lia).
    unfold DayFromYear. destruct (0 <=? d) eqn:Hd; Z.div_mod_to_equations; lia.
Qed.

Lemma YearFromTime_spec (t : Z) :
  TimeFromYear (YearFromTime t) <= t < TimeFromYear (YearFromTime t + 1).
Proof.
  unfold YearFromTime, TimeFromYear.
  pose proof (year_of_day_spec (Day t)) as H. revert H.
  generalize (DayFromYear (year_of_day (Day t))).
  generalize (DayFromYear (year_of_day (Day t) + 1)).
  unfold Day, msPerDay. intros hi lo H. Z.div_mod_to_equations. lia.
Qed.





(** The calendar fields of a time value are those of its day. *)
Lemma fields_of_day (t d : Z) :
  Day t = d →
  YearFromTime t = year_of_day d
  ∧ MonthFromTime t = MonthFromTime (d * msPerDay)
  ∧ DateFromTime t = DateFromTime (d * msPerDay).
Proof.
  intros Hd.
  assert (Day (d * msPerDay) = d) as Hd'
    by (unfold Day, msPerDay; apply Z.div_mul; lia).
  unfold DateFromTime, MonthFromTime, DayWithinYear, InLeapYear, YearFromTime.
  rewrite Hd, Hd'. auto.
Qed.







(** The instant [2024-03-05T00:00:00Z] and the local days around it. *)
Lemma Day_same_day (off : Z) :
  0 <= off < msPerDay → Day (1709596800000 + off) = 19787.
Proof. unfold Day, msPerDay. intros H. Z.div_mod_to_equations. lia. Qed.

Lemma Day_previous_day (off : Z) :
  - msPerDay <= off < 0 → Day (1709596800000 + off) = 19786.
Proof. unfold Day, msPerDay. intros H. Z.div_mod_to_equations. lia. Qed.

End DateArithmetic.

(** A date-only string of the ISO format is read as midnight UTC, whatever
    the host. *)
Lemma new_Date_2024_03_05 (host : Host) :
  ECMA.new_Date host "2024-03-05" = Some 1709596800000%Z.
Proof. reflexivity. Qed.

Lemma formatDate_valid (host : Host) (dateString : string) (t : Z) :
  ECMA.new_Date host dateString = Some t →
  formatDate host dateString =
    Normal (ECMA.format_year_short_day (defaultLocale host)
              (ECMA.YearFromTime (ECMA.LocalTime host t))
              (ECMA.MonthFromTime (ECMA.LocalTime host t))
              (ECMA.DateFromTime (ECMA.LocalTime host t))).
Proof. unfold formatDate. intros ->. reflexivity. Qed.

(** C5, as stated, fails: it holds in no time zone west of Greenwich.  In
    New York, in the [en-US] locale, the result is the day before. *)
Lemma formatDate_new_york_counterexample :
  defaultLocale Demo.new_york = en_US
  ∧ formatDate Demo.new_york "2024-03-05" = Normal "Mar 4, 2024"
  ∧ formatDate Demo.new_york "2024-03-05" ≠ Normal "Mar 5, 2024".
Proof.
  split; [reflexivity|].
  split; [vm_compute; reflexivity|].
  vm_compute. discriminate.
Qed.

(** C5, amended.  In the [en-US] locale, and where local time at the
    instant [2024-03-05T00:00:00Z] is not behind UTC, [formatDate] of
    [2024-03-05] is [Mar 5, 2024]. *)
Theorem formatDate_2024_03_05 (host : Host) :
  defaultLocale host = en_US →
  (0 <= LocalTZA host 1709596800000 < ECMA.msPerDay)%Z →
  formatDate host "2024-03-05" = Normal "Mar 5, 2024".
Proof.
  intros Hlocale Htz.
  rewrite (formatDate_valid host _ _ (new_Date_2024_03_05 host)).
  unfold ECMA.LocalTime.
  destruct (fields_of_day _ _ (Day_same_day _ Htz)) as (-> & -> & ->).
  rewrite Hlocale. reflexivity.
Qed.

Lemma formatDate_2024_03_05_witness :
  formatDate Demo.kolkata "2024-03-05" = Normal "Mar 5, 2024".
Proof.
  apply (formatDate_2024_03_05 Demo.kolkata).
  - reflexivity.
  - unfold ECMA.msPerDay. simpl. lia.
Defined.

(** Where local time is behind UTC, it is the day before. *)
Lemma formatDate_2024_03_05_west (host : Host) :
  defaultLocale host = en_US →
  (- ECMA.msPerDay <= LocalTZA host 1709596800000 < 0)%Z →
  formatDate host "2024-03-05" = Normal "Mar 4, 2024".
Proof.
  intros Hlocale Htz.
  rewrite (formatDate_valid host _ _ (new_Date_2024_03_05 host)).
  unfold ECMA.LocalTime.
  destruct (fields_of_day _ _ (Day_previous_day _ Htz)) as (-> & -> & ->).
  rewrite Hlocale. reflexivity.
Qed.

(** C6.  On a string [Date.parse] does not recognise, [formatDate] returns
    normally, with the string [Invalid Date]. *)
Theorem formatDate_unparseable (host : Host) (dateString : string) :
  ECMA.Date_parse host dateString = None →
  formatDate host dateString = Normal "Invalid Date".
Proof.
  intros Hparse. unfold formatDate, ECMA.new_Date. rewrite Hparse. reflexivity.
Qed.

Lemma formatDate_unparseable_witness :
  formatDate Demo.utc "not-a-date" = Normal "Invalid Date".
Proof.
  apply (formatDate_unparseable Demo.utc "not-a-date"). reflexivity.
Defined.

(** On no string does [formatDate] throw. *)
Lemma formatDate_never_throws (host : Host) (dateString : string) :
  ∃ result, formatDate host dateString = Normal result.
Proof.
  unfold formatDate.
  destruct (ECMA.new_Date host dateString) as [t|]; simpl; eauto.
Qed.

(** ** From the page load to a click *)

Section Loading.

Variable host : Host.

Lemma forEach_addEventListener (l : Listener) (ids : list NodeId) (w : World) :
  forEach ids (λ b, addEventListener b l) w =
    (mkWorld (nodes w) (document w)
       (listeners w ++ map (λ b, (b, l)) ids) (trace w), Normal tt).
Proof.
  revert w. induction ids as [|b ids IH]; intros w; simpl.
  - rewrite app_nil_r. by destruct w.
  - unfold_jsm. unfold addEventListener, update. rewrite IH. simpl.
    by rewrite <- app_assoc.
Qed.

Lemma new_bootstrap_Tooltip_run (el : NodeId) (w : World) :
  bootstrap_defined host = true →
  new_bootstrap_Tooltip host el w = (emit (NewTooltip el) w, Normal el).
Proof. intros Hb. unfold new_bootstrap_Tooltip. rewrite Hb. reflexivity. Qed.

Lemma map_array_new_Tooltip (ids : list NodeId) (w : World) :
  bootstrap_defined host = true →
  map_array ids (new_bootstrap_Tooltip host) w =
    (mkWorld (nodes w) (document w) (listeners w)
       (trace w ++ map NewTooltip ids), Normal ids).
Proof.
  intros Hb. revert w. induction ids as [|b ids IH]; intros w; simpl.
  - rewrite app_nil_r. by destruct w.
  - unfold mbind, JSM_mbind, JSM_bind.
    rewrite (new_bootstrap_Tooltip_run b w Hb), IH. simpl.
    by rewrite <- app_assoc.
Qed.

Lemma matching_mkWorld (p : Element → bool) (w : World)
    (ls : list (NodeId * Listener)) (tr : list Effect) :
  matching p (mkWorld (nodes w) (document w) ls tr) = matching p w.
Proof. reflexivity. Qed.

(** With Bootstrap loaded, the callback returns normally: it registers the
    toggle listener on every [.toggle-password] element, then creates a
    tooltip for every trigger, then registers the confirm listener on every
    [.btn-danger] element. *)
Lemma onDOMContentLoaded_run (w : World) :
  bootstrap_defined host = true →
  onDOMContentLoaded host w =
    (mkWorld (nodes w) (document w)
       (listeners w
        ++ map (λ b, (b, TogglePasswordClick)) (matching (has_class "toggle-password") w)
        ++ map (λ b, (b, ConfirmDeleteClick)) (matching (has_class "btn-danger") w))
       (trace w ++ map NewTooltip (matching (has_attribute "data-bs-toggle" "tooltip") w)),
     Normal tt).
Proof.
  intros Hb. unfold onDOMContentLoaded, querySelectorAll.
  unfold mbind, JSM_mbind, JSM_bind.
  rewrite forEach_addEventListener.
  rewrite (map_array_new_Tooltip _ _ Hb).
  rewrite forEach_addEventListener. simpl.
  by rewrite <- app_assoc.
Qed.

(** Without Bootstrap, a page with a tooltip trigger makes the callback
    throw at the first trigger: the toggles are wired, the confirm listeners
    are never registered. *)
Lemma onDOMContentLoaded_without_bootstrap (w : World) :
  bootstrap_defined host = false →
  matching (has_attribute "data-bs-toggle" "tooltip") w ≠ [] →
  onDOMContentLoaded host w =
    (mkWorld (nodes w) (document w)
       (listeners w
        ++ map (λ b, (b, TogglePasswordClick)) (matching (has_class "toggle-password") w))
       (trace w),
     Throw (ReferenceError "bootstrap is not defined")).
Proof.
  intros Hb Hne. unfold onDOMContentLoaded, querySelectorAll.
  unfold mbind, JSM_mbind, JSM_bind.
  rewrite forEach_addEventListener, matching_mkWorld.
  destruct (matching (has_attribute "data-bs-toggle" "tooltip") w) as [|t ts];
    [done|].
  simpl. unfold mbind, JSM_mbind, JSM_bind, new_bootstrap_Tooltip.
  rewrite Hb. reflexivity.
Qed.

(** Dispatch over the listeners of other elements does nothing. *)
Lemma run_listeners_other (l : Listener) (ids : list NodeId) (target : NodeId)
    (e : Event) (w : World) :
  target ∉ ids →
  run_listeners host (map (λ b, (b, l)) ids) target e w = (w, e).
Proof.
  induction ids as [|b ids IH]; intros Hnot; simpl; [reflexivity|].
  apply not_elem_of_cons in Hnot as [Hne Hnot].
  destruct (Nat.eqb_spec b target) as [->|_]; [done|]. apply IH, Hnot.
Qed.

(** Dispatch over the listeners of a selection that holds the target once
    runs the listener once. *)
Lemma run_listeners_once (l : Listener) (ids : list NodeId) (target : NodeId)
    (e : Event) (w : World) :
  NoDup ids → target ∈ ids →
  run_listeners host (map (λ b, (b, l)) ids) target e w
  = run_listener host l target e w.
Proof.
  induction ids as [|b ids IH]; intros Hnd Hin; [by apply elem_of_nil in Hin|].
  apply NoDup_cons in Hnd as [Hnb Hnd]. simpl.
  destruct (Nat.eqb_spec b target) as [->|Hne].
  - destruct (run_listener host l target e w) as [w' e'].
    apply run_listeners_other, Hnb.
  - apply elem_of_cons in Hin as [->|Hin]; [done|]. apply IH; assumption.
Qed.

Lemma run_listeners_app (ls1 ls2 : list (NodeId * Listener)) (target : NodeId)
    (e : Event) (w : World) :
  run_listeners host (ls1 ++ ls2) target e w =
    run_listeners host ls2 target
      (snd (run_listeners host ls1 target e w))
      (fst (run_listeners host ls1 target e w)).
Proof.
  revert e w. induction ls1 as [|[t l] ls1 IH]; intros e w; simpl; [reflexivity|].
  destruct (Nat.eqb t target); [|apply IH].
  destruct (run_listener host l target e w) as [w' e']. apply IH.
Qed.

Lemma elem_of_matching (p : Element → bool) (w : World) (i : NodeId) :
  i ∈ matching p w ↔ i ∈ document w ∧ ∃ el, nodes w !! i = Some el ∧ p el = true.
Proof.
  unfold matching. rewrite !list_elem_of_In, filter_In, <- list_elem_of_In.
  destruct (nodes w !! i) as [el|]; split; intros [H1 H2]; split; try done.
  - eauto.
  - destruct H2 as (el' & Heq & Hp). congruence.
  - destruct H2 as (el' & Heq & _). discriminate.
Qed.

Lemma NoDup_matching (p : Element → bool) (w : World) :
  NoDup (document w) → NoDup (matching p w).
Proof.
  unfold matching. generalize (document w).
  induction 1 as [|x l Hx Hl IH]; simpl; [constructor|].
  destruct (match nodes w !! x with Some el => p el | None => false end);
    [|exact IH].
  apply NoDup_cons. split; [|exact IH].
  rewrite list_elem_of_In, filter_In, <- list_elem_of_In. tauto.
Qed.

(** A click on an element of a freshly loaded page runs the toggle listener
    if the element is a [.toggle-password], then the confirm listener if it
    is a [.btn-danger], once each, on one event. *)
Lemma click_after_load (w : World) (this : NodeId) (el : Element) :
  bootstrap_defined host = true →
  listeners w = [] →
  NoDup (document w) →
  this ∈ document w →
  nodes w !! this = Some el →
  let w1 := fst (onDOMContentLoaded host w) in
  let r1 := if has_class "toggle-password" el
            then run_listener host TogglePasswordClick this (mkEvent true false) w1
            else (w1, mkEvent true false) in
  click host this w1 =
    if has_class "btn-danger" el
    then run_listener host ConfirmDeleteClick this (snd r1) (fst r1)
    else r1.
Proof.
  intros Hb Hl Hnd Hin Hel w1 r1.
  assert (listeners w1 =
            (map (λ b, (b, TogglePasswordClick)) (matching (has_class "toggle-password") w)
             ++ map (λ b, (b, ConfirmDeleteClick)) (matching (has_class "btn-danger") w))%list)
    as Hls by (unfold w1; rewrite (onDOMContentLoaded_run w Hb), Hl; reflexivity).
  unfold click. rewrite Hls, run_listeners_app.
  assert (run_listeners host
            (map (λ b, (b, TogglePasswordClick)) (matching (has_class "toggle-password") w))
            this (mkEvent true false) w1 = r1) as ->.
  { unfold r1. destruct (has_class "toggle-password" el) eqn:Hc.
    - apply run_listeners_once; [by apply NoDup_matching|].
      apply elem_of_matching. eauto.
    - apply run_listeners_other. rewrite elem_of_matching.
      intros (_ & el' & Heq & Hp). congruence. }
  destruct (has_class "btn-danger" el) eqn:Hc.
  - apply run_listeners_once; [by apply NoDup_matching|].
    apply elem_of_matching. eauto.
  - rewrite run_listeners_other; [by destruct r1|].
    rewrite elem_of_matching. intros (_ & el' & Heq & Hp). congruence.
Qed.

(** A click on a [.btn-danger] element of a freshly loaded page: the default
    action is cancelled exactly when the element has a non-empty prompt and
    the user rejects it. *)
Lemma click_danger_after_load (w : World) (this : NodeId) (el : Element) :
  bootstrap_defined host = true →
  listeners w = [] →
  NoDup (document w) →
  this ∈ document w →
  nodes w !! this = Some el →
  has_class "toggle-password" el = false →
  has_class "btn-danger" el = true →
  defaultPrevented (snd (click host this (fst (onDOMContentLoaded host w)))) =
    match attributes el !! "data-confirm" with
    | Some message => negb (String.eqb message "") && negb (user_confirms host message)
    | None => false
    end.
Proof.
  intros Hb Hl Hnd Hin Hel Ht Hd.
  pose proof (click_after_load w this el Hb Hl Hnd Hin Hel) as Hclick.
  simpl in Hclick. rewrite Ht, Hd in Hclick. rewrite Hclick. simpl.
  rewrite (onDOMContentLoaded_run w Hb). simpl.
  rewrite (confirmDelete_click_run host (mkWorld (nodes w) _ _ _) this el _ Hel).
  rewrite dataset_confirm.
  destruct (attributes el !! "data-confirm") as [message|]; simpl; [|reflexivity].
  destruct (String.eqb message ""); simpl; [reflexivity|].
  destruct (user_confirms host message); reflexivity.
Qed.

End Loading.

(** * Further properties of the script *)

(** ** The page load *)

Section Load.

Variable host : Host.

(** Where no element is a tooltip trigger, [bootstrap] is never looked up:
    the callback returns normally whether Bootstrap is loaded or not. *)
Lemma onDOMContentLoaded_no_triggers (w : World) :
  matching (has_attribute "data-bs-toggle" "tooltip") w = [] →
  onDOMContentLoaded host w =
    (mkWorld (nodes w) (document w)
       (listeners w
        ++ map (λ b, (b, TogglePasswordClick)) (matching (has_class "toggle-password") w)
        ++ map (λ b, (b, ConfirmDeleteClick)) (matching (has_class "btn-danger") w))
       (trace w),
     Normal tt).
Proof.
  intros Hnone. unfold onDOMContentLoaded, querySelectorAll.
  unfold mbind, JSM_mbind, JSM_bind.
  rewrite forEach_addEventListener, matching_mkWorld, Hnone. simpl.
  unfold mret, JSM_mret, JSM_ret.
  rewrite forEach_addEventListener. simpl. by rewrite <- app_assoc.
Qed.

(** X4.  The callback returns normally exactly when Bootstrap is loaded or
    the page has no tooltip trigger. *)
Theorem load_returns_normally_iff (w : World) :
  snd (onDOMContentLoaded host w) = Normal tt
  ↔ bootstrap_defined host = true
    ∨ matching (has_attribute "data-bs-toggle" "tooltip") w = [].
Proof.
  destruct (bootstrap_defined host) eqn:Hb.
  - rewrite (onDOMContentLoaded_run host w Hb). simpl. tauto.
  - destruct (matching (has_attribute "data-bs-toggle" "tooltip") w) as [|t ts] eqn:Hm.
    + rewrite (onDOMContentLoaded_no_triggers w Hm). simpl. tauto.
    + assert (matching (has_attribute "data-bs-toggle" "tooltip") w ≠ []) as Hne
        by (rewrite Hm; discriminate).
      rewrite (onDOMContentLoaded_without_bootstrap host w Hb Hne). simpl.
      split; [discriminate|]. intros [H|H]; discriminate.
Qed.


(** X2.  With Bootstrap loaded, the callback creates one tooltip for each
    element whose [data-bs-toggle] is [tooltip], in document order, and has
    no other effect outside the script. *)
Theorem load_creates_tooltips (w : World) :
  bootstrap_defined host = true →
  new_effects w (fst (onDOMContentLoaded host w))
  = map NewTooltip (matching (has_attribute "data-bs-toggle" "tooltip") w)
  ∧ (∀ el, NewTooltip el ∈ new_effects w (fst (onDOMContentLoaded host w))
           ↔ el ∈ document w
             ∧ ∃ e, nodes w !! el = Some e
                    ∧ attributes e !! "data-bs-toggle" = Some "tooltip").
Proof.
  intros Hb. rewrite (onDOMContentLoaded_run host w Hb). simpl.
  unfold new_effects. simpl. rewrite drop_app_length.
  split; [reflexivity|].
  intros el. rewrite list_elem_of_fmap. split.
  - intros (el' & [= <-] & Hin). apply elem_of_matching in Hin as (Hd & e & He & Ha).
    split; [exact Hd|]. exists e. split; [exact He|].
    unfold has_attribute in Ha.
    destruct (attributes e !! "data-bs-toggle") as [v|]; [|discriminate].
    apply String.eqb_eq in Ha. congruence.
  - intros (Hd & e & He & Ha). exists el. split; [reflexivity|].
    apply elem_of_matching. split; [exact Hd|]. exists e. split; [exact He|].
    unfold has_attribute. rewrite Ha. reflexivity.
Qed.

End Load.


Lemma load_creates_tooltips_witness :
  new_effects Listing.page (fst (onDOMContentLoaded Demo.utc Listing.page))
  = [NewTooltip 1; NewTooltip 2; NewTooltip 5].
Proof.
  exact (proj1 (load_creates_tooltips Demo.utc Listing.page eq_refl)).
Defined.

(** ** Clicks after the load *)

Section Dispatch.

Variable host : Host.






End Dispatch.




(** ** More on the toggle *)









(** X7.  After the first click a control with an input before it
    alternates between the two states the handler writes: an odd number of clicks leaves the input
    flipped and the icon of the flipped mode, an even number of clicks, two
    or more, leaves ['password'] with [fa-eye] if the input was masked at
    the start and ['text'] with [fa-eye-slash] if it was not. *)
Theorem toggle_clicks_alternate (w : World) (this i : NodeId)
    (button input : Element) (n : nat) :
  nodes w !! this = Some button →
  previousElementSibling button = Some i →
  nodes w !! i = Some input →
  is_input input = true →
  toggle_state (Nat.iter (S n) (λ w', fst (togglePassword_click this w')) w) this
  = Some (if Nat.even n
          then (VString (if masked input then "text" else "password"),
                if masked input then icon_eye_slash else icon_eye)
          else (VString (if masked input then "password" else "text"),
                if masked input then icon_eye else icon_eye_slash)).
Proof.
  intros Hthis Hp Hi _.
  assert (∃ input' button',
            nodes (Nat.iter (S n) (λ w', fst (togglePassword_click this w')) w) !! i
              = Some input'
            ∧ nodes (Nat.iter (S n) (λ w', fst (togglePassword_click this w')) w) !! this
              = Some button'
            ∧ previousElementSibling button' = Some i
            ∧ masked input' = xorb (masked input) (Nat.even n)
            ∧ type input' = VString (if masked input' then "password" else "text")
            ∧ innerHTML button' = icon_for input') as Hinv.
  { induction n as [|n IH].
    - destruct (togglePassword_click_post w this i button input Hthis Hp Hi)
        as (input' & button' & Hi' & Hb' & Hty & _ & Hhtml & Hp').
      exists input', button'. simpl.
      pose proof (masked_flipped _ _ Hty) as Hm.
      split; [exact Hi'|]. split; [exact Hb'|]. split; [exact Hp'|].
      split; [|split].
      + rewrite Hm. by destruct (masked input).
      + rewrite Hty, Hm. unfold flipped_type. by destruct (masked input).
      + rewrite Hhtml. by apply flipped_icon_is_icon_for.
    - destruct IH as (input1 & button1 & Hi1 & Hb1 & Hp1 & Hm1 & _ & _).
      destruct (togglePassword_click_post _ this i button1 input1 Hb1 Hp1 Hi1)
        as (input' & button' & Hi' & Hb' & Hty & _ & Hhtml & Hp').
      exists input', button'.
      pose proof (masked_flipped _ _ Hty) as Hm.
      split; [exact Hi'|]. split; [exact Hb'|]. split; [exact Hp'|].
      split; [|split].
      + rewrite Hm, Hm1, Nat.even_succ, <- Nat.negb_even.
        by destruct (masked input), (Nat.even n).
      + rewrite Hty, Hm. unfold flipped_type. by destruct (masked input1).
      + rewrite Hhtml. by apply flipped_icon_is_icon_for. }
  destruct Hinv as (input' & button' & Hi' & Hb' & Hp' & Hm & Hty & Hhtml).
  revert Hi' Hb'.
  generalize (Nat.iter (S n) (λ w', fst (togglePassword_click this w')) w).
  intros wn Hi' Hb'.
  unfold toggle_state. rewrite Hb'. simpl. rewrite Hp'. simpl. rewrite Hi'. simpl.
  rewrite Hty, Hhtml. unfold icon_for. rewrite Hm.
  by destruct (masked input), (Nat.even n).
Qed.

Lemma toggle_clicks_alternate_witness :
  toggle_state (Nat.iter 3 (λ w', fst (togglePassword_click 8 w')) Demo.page) 8
  = Some (VString "text", icon_eye_slash).
Proof.
  exact (toggle_clicks_alternate Demo.page 8 7
           (mkElement "BUTTON" ["toggle-password"] ∅ VUndefined
              icon_eye_slash (Some 7))
           (mkElement "INPUT" [] (Demo.attrs [("type", "password")])
              (VString "password") "" (Some 6))
           2 eq_refl eq_refl eq_refl eq_refl).
Defined.

(** ** More on dates *)

Section MoreDates.

Import ECMA.
Local Open Scope Z_scope.

Variable host : Host.






Lemma month_short_head (l : Locale) (m : Z) :
  ∃ c rest, month_short l m = String c rest ∧ c ≠ "I"%char.
Proof.
  unfold month_short.
  destruct m as [|p|p]; [| |eexists _, _; split; [reflexivity|discriminate]].
  - eexists _, _; split; [reflexivity|discriminate].
  - do 4 (try destruct p as [p|p|]); destruct l;
      (eexists _, _; split; [reflexivity|discriminate]).
Qed.

Lemma decimal_head (n : Z) :
  ∃ c rest, decimal n = String c rest ∧ c ≠ "I"%char.
Proof.
  unfold decimal. destruct (N.to_uint (Z.to_N n));
    (eexists _, _; split; [reflexivity|discriminate]).
Qed.

(** No date is rendered as the string [Invalid Date]. *)
Lemma format_not_invalid (l : Locale) (y m d : Z) :
  format_year_short_day l y m d ≠ "Invalid Date"%string.
Proof.
  unfold format_year_short_day. destruct l.
  - destruct (month_short_head en_US m) as (c & rest & -> & Hc).
    intros H. injection H as H _. contradiction.
  - destruct (decimal_head d) as (c & rest & -> & Hc).
    intros H. injection H as H _. contradiction.
Qed.

(** X12.  The result is the string [Invalid Date] exactly when the Date
    built from the argument is invalid: comparing the result with that
    string tells a caller whether the argument was understood. *)
Theorem formatDate_invalid_iff (dateString : string) :
  formatDate host dateString = Normal "Invalid Date"%string
  ↔ new_Date host dateString = None.
Proof.
  split.
  - intros H. destruct (new_Date host dateString) as [t|] eqn:Hnew; [|reflexivity].
    rewrite (formatDate_valid host _ _ Hnew) in H.
    injection H as H. by apply format_not_invalid in H.
  - intros Hnew. unfold formatDate. rewrite Hnew. reflexivity.
Qed.

End MoreDates.



(** ** What a click can do *)

Section Cancellation.

Variable host : Host.













End Cancellation.

